(** * RenderCICD: the word service (server.mjs, routes/Words.js, models/Word.js)

    A shallow embedding of the Express application: the JSON values a
    request carries, the Mongoose model [Word] with its schema, the two
    route handlers of [router] and the mounting of the router under
    [/api].  Handlers are asynchronous functions with a [try]/[catch]
    around the persistence calls; they are embedded in a state and
    exception monad over the [World] (the collection of stored words, the
    state of the connection, the console and the trace of model calls). *)

From Stdlib Require Import Floats Ascii String.
From stdpp Require Import base option list strings pretty gmap.

Set Default Proof Using "Type".
#[local] Set Warnings "-register-all".

(** ** JavaScript data *)

(** The values [express.json()] produces from a request payload and the
    values [res.json] serialises.  Numbers are IEEE doubles, objects are
    finite maps from property names, [undefined] is the absence of a value
    ([None] in an [option JSON]). *)
Inductive JSON :=
| JNull
| JBool (b : bool)
| JNum (x : float)
| JStr (s : string)
| JArr (l : list JSON)
| JObj (m : gmap string JSON).

(** What Mongoose holds against one path of a document: the value could not
    be cast to the schema type, or a validator of the path rejected it. *)
Inductive PathError :=
| CastError (kind path : string)
| ValidatorError (path msg : string).

(** Exceptions that can travel through the handlers: a JavaScript
    [TypeError], the [ValidationError] with which [save] rejects an invalid
    document, an error of the MongoDB driver. *)
Inductive JSError :=
| TypeError (msg : string)
| ValidationError (reason : PathError)
| MongoError (msg : string).

(** [ToBoolean]: [undefined], [null], [false], [+0], [-0], [NaN] and the
    empty string are falsy, everything else (arrays and objects included)
    is truthy. *)
Definition ToBoolean (v : option JSON) : bool :=
  match v with
  | None => false
  | Some JNull => false
  | Some (JBool b) => b
  | Some (JNum x) => negb (PrimFloat.eqb x 0 || PrimFloat.is_nan x)
  | Some (JStr s) => negb (String.eqb s "")
  | Some (JArr _) => true
  | Some (JObj _) => true
  end.

(** Reading a property that is not a built-in one ([word], [_id]) off a
    value that is neither [null] nor [undefined]: own properties of an
    object, [undefined] on primitives and arrays. *)
Definition get_property (k : string) (v : JSON) : option JSON :=
  match v with
  | JObj m => m !! k
  | _ => None
  end.

(** [const { k } = v]: destructuring [undefined] or [null] throws. *)
Definition destructure (k : string) (v : option JSON) : JSError + option JSON :=
  match v with
  | None => inl (TypeError "Cannot destructure property of undefined")
  | Some JNull => inl (TypeError "Cannot destructure property of null")
  | Some o => inr (get_property k o)
  end.

(** [Number.prototype.toString] on the doubles whose rendering is plain:
    zeros, infinities, NaN and the integers of magnitude at most 2^53, which
    print as their decimal expansion.  [m * 2^e] is an integer when [e] is
    not negative or [2^(-e)] divides [m]. *)
Definition integer_magnitude (m : positive) (e : Z) : option Z :=
  if (0 <=? e)%Z then Some (Z.pos m * 2 ^ e)%Z
  else if (Z.pos m mod 2 ^ (- e) =? 0)%Z then Some (Z.pos m / 2 ^ (- e))%Z
  else None.

(** ** models/Word.js *)

Inductive SchemaType := SchemaString.

Record SchemaPath := { required : bool; type : SchemaType }.

(** [new mongoose.Schema({ value: { required: true, type: String } })] *)
Definition wordSchema : gmap string SchemaPath :=
  {[ "value" := {| required := true; type := SchemaString |} ]}.

(** The [required] validator of a string path: the value must be a string
    of non-zero length. *)
Definition checkRequired (v : option string) : bool :=
  match v with
  | Some s => negb (String.eqb s "")
  | None => false
  end.

Definition ObjectId := N.

(** A stored word: the schema's [value], the identifier Mongoose assigns
    and the version key. *)
Record WordRecord := { _id : ObjectId; value : string; __v : float }.

(** A document in memory, before it is saved: its identifier and, per
    schema path, the cast value or the cast error kept for validation. *)
Record Document := { doc_id : ObjectId; doc_value : PathError + option string }.

(** ** Requests and responses *)

Inductive Method := GET | POST | PUT | DELETE | PATCH | HEAD | OPTIONS.

#[export] Instance Method_eq_dec : EqDecision Method.
Proof. solve_decision. Defined.

(** A request as the handlers see it: [body] is what [express.json()] left
    in [req.body]. *)
Record Request := { method : Method; path : string; body : option JSON }.

(** The response under construction: [res.statusCode] starts at 200. *)
Record Response := { statusCode : Z; payload : option JSON }.

Definition res : Response := {| statusCode := 200; payload := None |}.

Definition status (code : Z) (r : Response) : Response :=
  {| statusCode := code; payload := payload r |}.

Definition json (b : JSON) (r : Response) : Response :=
  {| statusCode := statusCode r; payload := Some b |}.

(** ** The world the handlers run in *)

Inductive ModelCall :=
| CallSave (d : Document)
| CallFind.

Record World := {
  collection : list WordRecord;      (* the [words] collection *)
  oid_counter : N;                   (* source of fresh ObjectIds *)
  db_fault : option string;          (* [Some msg]: the store fails with [msg] *)
  console : list (string * JSError); (* [console.error] lines, oldest first *)
  calls : list ModelCall             (* persistence calls issued, oldest first *)
}.

Inductive Completion (A : Type) :=
| Normal (a : A)
| Throw (e : JSError).
Arguments Normal {A} a.
Arguments Throw {A} e.

(** An asynchronous computation: it runs against the world and completes
    normally or by throwing (a rejected promise under [await]). *)
Definition Async (A : Type) : Type := World → Completion A * World.

#[export] Instance Async_ret : MRet Async := λ A a w, (Normal a, w).

#[export] Instance Async_bind : MBind Async := λ A B f m w,
  match m w with
  | (Normal a, w') => f a w'
  | (Throw e, w') => (Throw e, w')
  end.

Definition throw {A} (e : JSError) : Async A := λ w, (Throw e, w).

(** [try { body } catch (err) { handler }] *)
Definition try_catch {A} (body : Async A) (handler : JSError → Async A) : Async A :=
  λ w, match body w with
       | (Normal a, w') => (Normal a, w')
       | (Throw e, w') => handler e w'
       end.

Definition lift {A} (r : JSError + A) : Async A :=
  match r with
  | inl e => throw e
  | inr a => mret a
  end.

Definition console_error (label : string) (err : JSError) : Async unit :=
  λ w, (Normal tt,
        {| collection := collection w; oid_counter := oid_counter w;
           db_fault := db_fault w; console := console w ++ [(label, err)];
           calls := calls w |}).

Definition record_call (c : ModelCall) : Async unit :=
  λ w, (Normal tt,
        {| collection := collection w; oid_counter := oid_counter w;
           db_fault := db_fault w; console := console w;
           calls := calls w ++ [c] |}).

Definition fresh_ObjectId : Async ObjectId :=
  λ w, (Normal (oid_counter w),
        {| collection := collection w; oid_counter := N.succ (oid_counter w);
           db_fault := db_fault w; console := console w;
           calls := calls w |}).

(** The round trip to the store: it throws when the store is at fault. *)
Definition db_roundtrip : Async unit :=
  λ w, match db_fault w with
       | Some msg => (Throw (MongoError msg), w)
       | None => (Normal tt, w)
       end.

Definition insertOne (r : WordRecord) : Async unit :=
  λ w, (Normal tt,
        {| collection := collection w ++ [r]; oid_counter := oid_counter w;
           db_fault := db_fault w; console := console w;
           calls := calls w |}).

(** ** Casting to the schema type *)

Section WithNumberRendering.

(** The shortest round-trip rendering of the remaining doubles (fractions
    and magnitudes above 2^53) is left to the engine. *)
Variable fraction_toString : float → string.

Definition Number_toString (x : float) : string :=
  match Prim2SF x with
  | S754_nan => "NaN"
  | S754_zero _ => "0"
  | S754_infinity s => if s then "-Infinity" else "Infinity"
  | S754_finite s m e =>
      match integer_magnitude m e with
      | Some n =>
          if (n <=? 2 ^ 53)%Z
          then (if s then "-" else "") +:+ pretty n
          else fraction_toString x
      | None => fraction_toString x
      end
  end.

Definition Boolean_toString (b : bool) : string :=
  if b then "true" else "false".

(** Mongoose's cast to [String]: [null] and [undefined] stay as they are; a
    value with a string [_id] casts to that [_id]; a value whose [toString]
    is not [Object.prototype.toString] and that is not an array casts to its
    [toString()]; anything else is a cast error. *)
Definition castString (path : string) (v : option JSON) : PathError + option string :=
  match v with
  | None | Some JNull => inr None
  | Some (JStr s) => inr (Some s)
  | Some (JNum x) => inr (Some (Number_toString x))
  | Some (JBool b) => inr (Some (Boolean_toString b))
  | Some (JArr _) => inl (CastError "string" path)
  | Some (JObj m) =>
      match m !! "_id" with
      | Some (JStr s) =>
          if ToBoolean (Some (JStr s)) then inr (Some s)
          else inl (CastError "string" path)
      | _ => inl (CastError "string" path)
      end
  end.

Definition cast (t : SchemaType) : string → option JSON → PathError + option string :=
  match t with SchemaString => castString end.

(** [new Word({ value: v })]: a fresh identifier, the value cast by the
    schema type of the path; a cast error does not throw here, it is kept
    in the document and reported by validation. *)
Definition new_Word (v : option JSON) : Async Document :=
  id ← fresh_ObjectId;
  mret {| doc_id := id;
          doc_value := match wordSchema !! "value" with
                       | Some p => cast (type p) "value" v
                       | None => inr None
                       end |}.

(** [doc.validate()], run by [save] before anything is sent. *)
Definition validate (d : Document) : Async string :=
  match doc_value d with
  | inl e => throw (ValidationError e)
  | inr v =>
      match wordSchema !! "value" with
      | Some p =>
          if required p && negb (checkRequired v)
          then throw (ValidationError (ValidatorError "value" "Path `value` is required."))
          else mret (default "" v)
      | None => mret (default "" v)
      end
  end.

(** [await doc.save()] *)
Definition save (d : Document) : Async unit :=
  record_call (CallSave d);;
  v ← validate d;
  db_roundtrip;;
  insertOne {| _id := doc_id d; value := v; __v := 0 |}.

Definition findAll : Async (list WordRecord) :=
  λ w, (Normal (collection w), w).

(** [await Word.find()] *)
Definition Word_find : Async (list WordRecord) :=
  record_call CallFind;;
  db_roundtrip;;
  findAll.

(** An ObjectId serialises as 24 lower-case hexadecimal digits. *)
Definition hex_digit (d : N) : ascii :=
  default "0"%char (list_ascii_of_string "0123456789abcdef" !! N.to_nat d).

Fixpoint hex_fixed (width : nat) (n : N) : string :=
  match width with
  | O => ""
  | S k => hex_fixed k (n / 16) +:+ String (hex_digit (n mod 16)) ""
  end.

Definition toHexString (id : ObjectId) : string := hex_fixed 24 id.

(** [doc.toJSON()] with the schema's default options: the stored paths, the
    identifier under [_id] and the version key under [__v]; the [id] virtual
    is not part of the output. *)
Definition toJSON (r : WordRecord) : JSON :=
  JObj (<["_id" := JStr (toHexString (_id r))]>
        (<["value" := JStr (value r)]>
         (<["__v" := JNum (__v r)]> ∅))).

(** ** routes/Words.js *)

Definition HTTP_BAD_REQUEST : Z := 400.
Definition HTTP_INTERNAL_SERVER_ERROR : Z := 500.

(** [router.post('/addWord', async (req, res) => ...)] *)
Definition addWord (req : Request) (res : Response) : Async Response :=
  word ← lift (destructure "word" (body req));
  if negb (ToBoolean word) then
    mret (json (JObj {[ "error" := JStr "Word is required" ]})
               (status HTTP_BAD_REQUEST res))
  else
    try_catch
      (newWord ← new_Word word;
       save newWord;;
       mret (json (JObj {[ "message" := JStr "Word added successfully" ]}) res))
      (λ err,
         console_error "Error adding word:" err;;
         mret (json (JObj {[ "error" := JStr "Error adding word" ]})
                    (status HTTP_INTERNAL_SERVER_ERROR res))).

(** [router.get('/viewWords', async (req, res) => ...)] *)
Definition viewWords (req : Request) (res : Response) : Async Response :=
  try_catch
    (words ← Word_find;
     mret (json (JArr (toJSON <$> words)) res))
    (λ err,
       console_error "Error fetching words:" err;;
       mret (json (JObj {[ "error" := JStr "Error fetching words" ]})
                  (status HTTP_INTERNAL_SERVER_ERROR res))).

Record Route := {
  route_method : Method;
  route_path : string;
  route_handler : Request → Response → Async Response
}.

Definition addWord_route : Route :=
  {| route_method := POST; route_path := "/addWord"; route_handler := addWord |}.

Definition viewWords_route : Route :=
  {| route_method := GET; route_path := "/viewWords"; route_handler := viewWords |}.

(** The router, in registration order. *)
Definition router : list Route := [addWord_route; viewWords_route].

(** ** Express routing (default settings: case-insensitive, non-strict) *)

Fixpoint segments (s : string) : list string :=
  match s with
  | EmptyString => [""]
  | String c s' =>
      if Ascii.eqb c "/" then "" :: segments s'
      else match segments s' with
           | seg :: rest => String c seg :: rest
           | [] => [String c ""]
           end
  end.

Definition lower_ascii (c : ascii) : ascii :=
  let n := nat_of_ascii c in
  if (65 <=? n)%nat && (n <=? 90)%nat then ascii_of_nat (n + 32) else c.

Fixpoint lower (s : string) : string :=
  match s with
  | EmptyString => EmptyString
  | String c s' => String (lower_ascii c) (lower s')
  end.

(** One trailing slash is ignored. *)
Definition strip_trailing (segs : list string) : list string :=
  match reverse segs with
  | "" :: (_ :: _) as rest => reverse rest
  | _ => segs
  end.

Definition path_key (segs : list string) : list string :=
  strip_trailing (lower <$> segs).

(** [app.use(mount, router)]: the mount path must be a prefix of the request
    path, whole segments; the router sees what follows it.  The mount takes
    one slash after it when another slash follows ([/api//addWord] reaches
    the router as [/addWord]). *)
Definition strip_mount (mount p : string) : option (list string) :=
  let m := path_key (segments mount) in
  let segs := segments p in
  if bool_decide (take (length m) (lower <$> segs) = m)
  then Some ("" :: match drop (length m) segs with
                   | "" :: (_ :: _) as rest => rest
                   | rest => rest
                   end)
  else None.

(** A route handles its own method; a GET route also answers HEAD. *)
Definition handles_method (r : Route) (m : Method) : bool :=
  bool_decide (route_method r = m)
  || (bool_decide (m = HEAD) && bool_decide (route_method r = GET)).

Definition route_matches (rest : list string) (m : Method) (r : Route) : bool :=
  bool_decide (path_key rest = path_key (segments (route_path r)))
  && handles_method r m.

Definition dispatch (routes : list Route) (rest : list string) (m : Method) : option Route :=
  snd <$> list_find (λ r, Is_true (route_matches rest m r)) routes.

(** ** server.mjs *)

(** What became of a request: a handler replied, a handler threw outside
    its [try] (a rejected promise, no reply from this code), or no route of
    the application matched and Express answers by itself (404 Not Found). *)
Inductive Served :=
| Replied (r : Response)
| Rejected (e : JSError)
| Unrouted.

(** Express calls the handler with the request and a fresh response. *)
Definition run_handler (h : Request → Response → Async Response)
    (req : Request) (w : World) : Served * World :=
  match h req res w with
  | (Normal r', w') => (Replied r', w')
  | (Throw e, w') => (Rejected e, w')
  end.

(** [app.use(express.json()); app.use('/api', wordRoutes)] *)
Definition app (req : Request) (w : World) : Served * World :=
  match strip_mount "/api" (path req) with
  | None => (Unrouted, w)
  | Some rest =>
      match dispatch router rest (method req) with
      | None => (Unrouted, w)
      | Some r => run_handler (route_handler r) req w
      end
  end.

(** ** Requests and stores of the scenarios *)

(** The insertion request with word [s], and the listing request. *)
Definition insertion_request (s : string) : Request :=
  {| method := POST; path := "/api/addWord";
     body := Some (JObj {[ "word" := JStr s ]}) |}.

Definition listing_request : Request :=
  {| method := GET; path := "/api/viewWords"; body := Some (JObj ∅) |}.

(** A rendering of the remaining doubles to run examples with. *)
Definition fixed_rendering : float → string := λ _, "0.5".

(** A fresh, reachable store and the same store made unreachable. *)
Definition empty_store : World :=
  {| collection := []; oid_counter := 0; db_fault := None;
     console := []; calls := [] |}.

Definition unreachable_store : World :=
  {| collection := []; oid_counter := 0; db_fault := Some "ECONNREFUSED";
     console := []; calls := [] |}.

(** The store after one successful insertion of "testword". *)
Definition testword_store : World :=
  {| collection := [{| _id := 0%N; value := "testword"; __v := 0 |}];
     oid_counter := 1; db_fault := None; console := [];
     calls := [CallSave {| doc_id := 0%N; doc_value := inr (Some "testword") |}] |}.

(** Every stored word has a non-empty [value]. *)
Definition values_nonempty (w : World) : Prop :=
  Forall (λ r, value r ≠ "") (collection w).

(** ** server.mjs: connecting at start-up *)

(** [mongoose.connect(process.env.MONGO_URI)]: the promise rejects when the
    store is at fault. *)
Definition mongoose_connect : Async unit := db_roundtrip.

(** [mongoose.connect(...).then(() => console.log('Connected to MongoDB'))
      .catch((err) => console.error('Error connecting to MongoDB:', err))];
    the result is what [console.log] printed. *)
Definition connect_MongoDB : Async (list string) :=
  try_catch
    (mongoose_connect;; mret ["Connected to MongoDB"])
    (λ err, console_error "Error connecting to MongoDB:" err;; mret []).

(** ** Histories of the service *)

(** What happens to a running server: a request arrives, or the store
    changes state (it becomes unreachable, or reachable again). *)
Inductive Event :=
| Arrives (req : Request)
| StoreTurns (fault : option string).

Definition set_fault (fault : option string) (w : World) : World :=
  {| collection := collection w; oid_counter := oid_counter w;
     db_fault := fault; console := console w; calls := calls w |}.

(** The application serving a history, oldest event first: the outcomes of
    the requests, in order, and the world at the end. *)
Fixpoint serve (evs : list Event) (w : World) : list Served * World :=
  match evs with
  | [] => ([], w)
  | Arrives req :: evs' =>
      let '(s, w1) := app req w in
      let '(ss, w2) := serve evs' w1 in
      (s :: ss, w2)
  | StoreTurns fault :: evs' => serve evs' (set_fault fault w)
  end.

(** The insertion requests for a list of words, one after the other. *)
Definition submit (ws : list string) : list Event :=
  (λ s, Arrives (insertion_request s)) <$> ws.

(** The reply that reports an insertion: status 200 with an object (the
    listing replies 200 with an array). *)
Definition is_added (s : Served) : bool :=
  match s with
  | Replied r =>
      match payload r with
      | Some (JObj _) => (statusCode r =? 200)%Z
      | _ => false
      end
  | _ => false
  end.

(** Identifiers of the stored records are below the counter and pairwise
    distinct. *)
Definition ids_fresh (w : World) : Prop :=
  Forall (λ r, (_id r < oid_counter w)%N) (collection w) ∧
  NoDup (_id <$> collection w).

(** ** Reasoning about handlers *)

Ltac run_async :=
  unfold addWord, viewWords, new_Word, save, validate, Word_find, findAll,
    insertOne, db_roundtrip, fresh_ObjectId, record_call, console_error,
    try_catch, lift, throw, mbind, mret, Async_bind, Async_ret, cast in *;
  cbn [fst snd collection oid_counter db_fault console calls doc_id doc_value
       required type] in *.

Lemma wordSchema_value :
  wordSchema !! "value" = Some {| required := true; type := SchemaString |}.
Proof. reflexivity. Qed.

Lemma String_eqb_empty (s : string) : String.eqb s "" = false ↔ s ≠ "".
Proof. destruct s; cbn; split; congruence. Qed.

Lemma checkRequired_true (v : option string) :
  checkRequired v = true ↔ ∃ s, v = Some s ∧ s ≠ "".
Proof.
  destruct v as [s|]; cbn.
  - rewrite negb_true_iff, String_eqb_empty. split.
    + intros Hs. by exists s.
    + by intros (s' & [= ->] & Hs).
  - split; [done|]. by intros (s & Hs & _).
Qed.

(** The presence check rejects: nothing else happens. *)
Lemma addWord_falsy (req : Request) (r : Response) (w : World) (word : option JSON) :
  destructure "word" (body req) = inr word →
  ToBoolean word = false →
  addWord req r w =
    (Normal (json (JObj {[ "error" := JStr "Word is required" ]})
                  (status HTTP_BAD_REQUEST r)), w).
Proof.
  intros Hd Hf. unfold addWord. rewrite Hd. run_async. by rewrite Hf.
Qed.

(** Past the presence check the handler is its [try] block, and a throw of
    the block becomes a console line and the fixed 500 reply. *)
Lemma addWord_truthy (req : Request) (r : Response) (w : World) (word : option JSON) :
  destructure "word" (body req) = inr word →
  ToBoolean word = true →
  addWord req r w =
    match (new_Word word ≫= save) w with
    | (Normal _, w') =>
        (Normal (json (JObj {[ "message" := JStr "Word added successfully" ]}) r), w')
    | (Throw e, w') =>
        (Normal (json (JObj {[ "error" := JStr "Error adding word" ]})
                      (status HTTP_INTERNAL_SERVER_ERROR r)),
         {| collection := collection w'; oid_counter := oid_counter w';
            db_fault := db_fault w'; console := console w' ++ [("Error adding word:", e)];
            calls := calls w' |})
    end.
Proof.
  intros Hd Ht. unfold addWord. rewrite Hd. run_async. rewrite Ht. cbn.
  rewrite wordSchema_value. cbn.
  destruct (castString "value" word) as [e|v]; cbn; [done|].
  destruct (checkRequired v); cbn; [|done].
  by destruct (db_fault w).
Qed.

(** What [save] does to a freshly built document. *)
Lemma new_Word_save (word : option JSON) (w : World) :
  (new_Word word ≫= save) w =
    let d := {| doc_id := oid_counter w; doc_value := castString "value" word |} in
    let w1 := {| collection := collection w; oid_counter := N.succ (oid_counter w);
                 db_fault := db_fault w; console := console w;
                 calls := calls w ++ [CallSave d] |} in
    match castString "value" word with
    | inl e => (Throw (ValidationError e), w1)
    | inr v =>
        if checkRequired v then
          match db_fault w with
          | Some msg => (Throw (MongoError msg), w1)
          | None =>
              (Normal tt,
               {| collection := collection w ++
                    [{| _id := oid_counter w; value := default "" v; __v := 0 |}];
                  oid_counter := N.succ (oid_counter w);
                  db_fault := db_fault w; console := console w;
                  calls := calls w ++ [CallSave d] |})
          end
        else (Throw (ValidationError (ValidatorError "value" "Path `value` is required.")), w1)
    end.
Proof.
  run_async. rewrite wordSchema_value. cbn.
  destruct (castString "value" word) as [e|v]; cbn; [done|].
  destruct (checkRequired v); cbn; [|done].
  by destruct (db_fault w).
Qed.

(** The listing handler, by the state of the store. *)
Lemma viewWords_eq (req : Request) (r : Response) (w : World) :
  viewWords req r w =
    match db_fault w with
    | None =>
        (Normal (json (JArr (toJSON <$> collection w)) r),
         {| collection := collection w; oid_counter := oid_counter w;
            db_fault := db_fault w; console := console w;
            calls := calls w ++ [CallFind] |})
    | Some msg =>
        (Normal (json (JObj {[ "error" := JStr "Error fetching words" ]})
                      (status HTTP_INTERNAL_SERVER_ERROR r)),
         {| collection := collection w; oid_counter := oid_counter w;
            db_fault := db_fault w;
            console := console w ++ [("Error fetching words:", MongoError msg)];
            calls := calls w ++ [CallFind] |})
    end.
Proof. run_async. by destruct (db_fault w). Qed.

Lemma Word_find_eq (w : World) :
  Word_find w =
    let w1 := {| collection := collection w; oid_counter := oid_counter w;
                 db_fault := db_fault w; console := console w;
                 calls := calls w ++ [CallFind] |} in
    match db_fault w with
    | None => (Normal (collection w), w1)
    | Some msg => (Throw (MongoError msg), w1)
    end.
Proof. run_async. by destruct (db_fault w). Qed.

(** *** Routing *)

Lemma dispatch_router (rest : list string) (m : Method) (r : Route) :
  dispatch router rest m = Some r →
  (r = addWord_route ∧ m = POST) ∨
  (r = viewWords_route ∧ (m = GET ∨ m = HEAD)).
Proof.
  unfold dispatch. intros Hd.
  apply fmap_Some in Hd as ([i r'] & Hf & ->). cbn.
  apply list_find_Some in Hf as (Hi & Hm & _).
  unfold route_matches in Hm. apply Is_true_true, andb_true_iff in Hm as [_ Hm].
  unfold router in Hi.
  destruct i as [|[|i]]; cbn in Hi; simplify_eq.
  - left. split; [done|]. by destruct m.
  - right. split; [done|]. destruct m; cbn in Hm; auto; done.
Qed.

Lemma app_cases (req : Request) (w : World) :
  app req w = (Unrouted, w) ∨
  (method req = POST ∧ app req w = run_handler addWord req w) ∨
  ((method req = GET ∨ method req = HEAD) ∧ app req w = run_handler viewWords req w).
Proof.
  unfold app. destruct (strip_mount "/api" (path req)) as [rest|]; [|by left].
  destruct (dispatch router rest (method req)) as [r|] eqn:Hd; [|by left].
  apply dispatch_router in Hd as [[-> Hm]|[-> Hm]]; cbn; auto.
Qed.

Lemma app_addWord (req : Request) (w : World) :
  method req = POST → path req = "/api/addWord" →
  app req w = run_handler addWord req w.
Proof. intros Hm Hp. unfold app. rewrite Hm, Hp. reflexivity. Qed.

Lemma app_viewWords (req : Request) (w : World) :
  method req = GET → path req = "/api/viewWords" →
  app req w = run_handler viewWords req w.
Proof. intros Hm Hp. unfold app. rewrite Hm, Hp. reflexivity. Qed.

(** A non-empty string on a store that serves its calls: one record. *)
Lemma addWord_string_saved (req : Request) (r : Response) (w : World) (s : string) :
  destructure "word" (body req) = inr (Some (JStr s)) →
  s ≠ "" →
  db_fault w = None →
  addWord req r w =
    (Normal (json (JObj {[ "message" := JStr "Word added successfully" ]}) r),
     {| collection := collection w ++
          [{| _id := oid_counter w; value := s; __v := 0 |}];
        oid_counter := N.succ (oid_counter w);
        db_fault := None; console := console w;
        calls := calls w ++
          [CallSave {| doc_id := oid_counter w; doc_value := inr (Some s) |}] |}).
Proof.
  intros Hd Hs Hup. apply String_eqb_empty in Hs.
  rewrite (addWord_truthy _ _ _ _ Hd) by (cbn; by rewrite Hs).
  rewrite new_Word_save. cbn. rewrite Hs. cbn. rewrite Hup. reflexivity.
Qed.

Lemma app_insertion_request (s : string) (w : World) :
  s ≠ "" →
  db_fault w = None →
  app (insertion_request s) w =
    (Replied {| statusCode := 200;
                payload := Some (JObj {[ "message" := JStr "Word added successfully" ]}) |},
     {| collection := collection w ++
          [{| _id := oid_counter w; value := s; __v := 0 |}];
        oid_counter := N.succ (oid_counter w);
        db_fault := None; console := console w;
        calls := calls w ++
          [CallSave {| doc_id := oid_counter w; doc_value := inr (Some s) |}] |}).
Proof.
  intros Hs Hup. rewrite app_addWord by done. unfold run_handler.
  by rewrite (addWord_string_saved _ _ _ s).
Qed.

Lemma app_listing_request (w : World) :
  db_fault w = None →
  (app listing_request w).1 =
    Replied {| statusCode := 200;
               payload := Some (JArr (toJSON <$> collection w)) |}.
Proof.
  intros Hup. rewrite app_viewWords by done. unfold run_handler.
  rewrite viewWords_eq, Hup. reflexivity.
Qed.

(** *** Identifiers in the listing *)

Lemma append_last_inj (s1 s2 : string) (a b : ascii) :
  s1 +:+ String a "" = s2 +:+ String b "" → a = b.
Proof.
  revert s2. induction s1 as [|c s1 IH]; intros [|c' s2]; cbn; intros H.
  - by injection H.
  - injection H as _ H. by destruct s2.
  - injection H as _ H. by destruct s1.
  - injection H as _ H. by apply (IH s2).
Qed.

Lemma hex_digit_succ (n : N) :
  hex_digit (n mod 16) ≠ hex_digit (N.succ n mod 16).
Proof.
  assert (N.succ n mod 16 = (n mod 16 + 1) mod 16)%N as ->.
  { rewrite <- N.add_1_r. rewrite N.Div0.add_mod_idemp_l. done. }
  pose proof (N.mod_upper_bound n 16 ltac:(done)) as Hlt.
  destruct (n mod 16)%N as [|p]; [by vm_compute|].
  do 4 (try destruct p as [p|p|]); try lia; by vm_compute.
Qed.

(** Consecutive identifiers serialise to different strings: their last
    hexadecimal digits differ. *)
Lemma toHexString_succ (n : N) : toHexString n ≠ toHexString (N.succ n).
Proof.
  unfold toHexString. change 24%nat with (S 23). cbn [hex_fixed].
  intros H. apply append_last_inj in H. by apply hex_digit_succ in H.
Qed.

(** ** The claims *)

(** C1 (as amended): for every non-empty string [s], on a store that serves
    its calls, the insertion request with [s] followed by the listing request
    yields a listing response whose array contains a record whose [value]
    equals [s]. *)
Theorem insert_then_list (s : string) (w : World) :
  s ≠ "" →
  db_fault w = None →
  ∃ r arr rec,
    (app listing_request (app (insertion_request s) w).2).1 = Replied r ∧
    payload r = Some (JArr arr) ∧
    rec ∈ arr ∧ get_property "value" rec = Some (JStr s).
Proof.
  intros Hs Hup. rewrite app_insertion_request by done. cbn [snd].
  rewrite app_listing_request by done. cbn [collection].
  eexists _, _, (toJSON {| _id := oid_counter w; value := s; __v := 0 |}).
  split; [done|]. split; [done|]. split; [|done].
  rewrite fmap_app. apply elem_of_app. right. apply list_elem_of_here.
Qed.

(** C2: the repository's test and guide issue [GET /api/addWord/testword]
    and expect the word to be added; the router of routes/Words.js has no
    route for it, and no GET request ever stores a word. *)
Theorem get_addWord_path_unrouted :
  (∀ (b : option JSON) (w : World),
     app {| method := GET; path := "/api/addWord/testword"; body := b |} w
     = (Unrouted, w)) ∧
  (∀ (p : string) (b : option JSON) (w : World),
     collection (app {| method := GET; path := p; body := b |} w).2
     = collection w).
Proof.
  split.
  - intros b w. reflexivity.
  - intros p b w.
    destruct (app_cases {| method := GET; path := p; body := b |} w)
      as [-> | [[Hm _] | [_ ->]]]; [done | done |].
    unfold run_handler. rewrite viewWords_eq. by destruct (db_fault w).
Qed.


(** C4: an insertion request with a non-empty word [s] whose persistence
    call succeeds stores exactly one new record, with [value] equal to [s],
    and is answered 200 with [{message: "Word added successfully"}]. *)
Theorem addWord_stores_word (req : Request) (s : string) (w : World) :
  destructure "word" (body req) = inr (Some (JStr s)) →
  s ≠ "" →
  db_fault w = None →
  (addWord req res w).1 =
    Normal {| statusCode := 200;
              payload := Some (JObj {[ "message" := JStr "Word added successfully" ]}) |} ∧
  collection (addWord req res w).2 =
    collection w ++ [{| _id := oid_counter w; value := s; __v := 0 |}] ∧
  calls (addWord req res w).2 =
    calls w ++ [CallSave {| doc_id := oid_counter w; doc_value := inr (Some s) |}].
Proof.
  intros Hd Hs Hup. by rewrite (addWord_string_saved _ _ _ s).
Qed.

(** C5: when the persistence call of an insertion request fails with an
    error [e], whatever it is, the handler answers 500 with exactly
    [{error: "Error adding word"}], the error [e] itself is written to the
    error log, and no record is created. *)
Theorem addWord_persistence_failure
    (req : Request) (word : option JSON) (w w' : World) (e : JSError) :
  destructure "word" (body req) = inr word →
  ToBoolean word = true →
  (new_Word word ≫= save) w = (Throw e, w') →
  (addWord req res w).1 =
    Normal {| statusCode := 500;
              payload := Some (JObj {[ "error" := JStr "Error adding word" ]}) |} ∧
  console (addWord req res w).2 = console w ++ [("Error adding word:", e)] ∧
  collection (addWord req res w).2 = collection w.
Proof.
  intros Hd Ht Hfail. rewrite (addWord_truthy _ _ _ _ Hd Ht), Hfail. cbn.
  rewrite new_Word_save in Hfail. cbn in Hfail.
  destruct (castString "value" word) as [e'|v]; [by simplify_eq|].
  destruct (checkRequired v); [|by simplify_eq].
  destruct (db_fault w); by simplify_eq.
Qed.

(** C6 (as amended): a listing request whose retrieval succeeds is answered
    200 with a JSON array holding every stored record, in store order; each
    element carries the record's [value] and its storage-assigned identifier
    under the key [_id]; on an empty store the array is empty. *)
Theorem viewWords_lists_all (req : Request) (w : World) :
  db_fault w = None →
  (viewWords req res w).1 =
    Normal {| statusCode := 200;
              payload := Some (JArr (toJSON <$> collection w)) |} ∧
  (∀ r, r ∈ collection w →
     get_property "value" (toJSON r) = Some (JStr (value r)) ∧
     get_property "_id" (toJSON r) = Some (JStr (toHexString (_id r)))) ∧
  (collection w = [] →
     (viewWords req res w).1 =
       Normal {| statusCode := 200; payload := Some (JArr []) |}) ∧
  collection (viewWords req res w).2 = collection w.
Proof.
  intros Hup. rewrite viewWords_eq, Hup. cbn.
  split; [done|]. split; [|split; [by intros ->|done]].
  intros r _. split; reflexivity.
Qed.

(** C7: when the retrieval of a listing request fails with an error [e],
    the handler answers 500 with exactly [{error: "Error fetching words"}]
    and writes [e] to the error log; it does not throw. *)
Theorem viewWords_retrieval_failure (req : Request) (w w' : World) (e : JSError) :
  Word_find w = (Throw e, w') →
  (viewWords req res w).1 =
    Normal {| statusCode := 500;
              payload := Some (JObj {[ "error" := JStr "Error fetching words" ]}) |} ∧
  console (viewWords req res w).2 = console w ++ [("Error fetching words:", e)] ∧
  collection (viewWords req res w).2 = collection w.
Proof.
  rewrite Word_find_eq, viewWords_eq. cbn.
  destruct (db_fault w); intros Hfail; by simplify_eq.
Qed.

(** The insertion handler leaves the collection alone or appends one
    record with a non-empty value, and then it has replied with success. *)
Lemma addWord_collection (req : Request) (r : Response) (w : World) :
  collection (addWord req r w).2 = collection w ∨
  ∃ s, s ≠ "" ∧
    collection (addWord req r w).2 =
      collection w ++ [{| _id := oid_counter w; value := s; __v := 0 |}] ∧
    (addWord req r w).1 =
      Normal (json (JObj {[ "message" := JStr "Word added successfully" ]}) r).
Proof.
  destruct (destructure "word" (body req)) as [e|word] eqn:Hd.
  { left. unfold addWord. rewrite Hd. reflexivity. }
  destruct (ToBoolean word) eqn:Ht.
  2:{ left. by rewrite (addWord_falsy _ _ _ _ Hd Ht). }
  rewrite (addWord_truthy _ _ _ _ Hd Ht), new_Word_save. cbn.
  destruct (castString "value" word) as [e|v]; [by left|].
  destruct (checkRequired v) eqn:Hv; [|by left].
  destruct (db_fault w); [by left|].
  apply checkRequired_true in Hv as (s & -> & Hs).
  right. by exists s.
Qed.

(** C8: every request served by the application keeps the invariant that
    every stored record has a non-empty [value]; stored records are never
    changed or removed (the old collection is a prefix of the new one), and
    a record is added only by a POST request that is answered with the
    success reply of the insertion handler. *)
Theorem app_preserves_words (req : Request) (w : World) :
  values_nonempty w →
  values_nonempty (app req w).2 ∧
  ∃ new,
    collection (app req w).2 = collection w ++ new ∧
    (new ≠ [] →
       (∃ s, s ≠ "" ∧ new = [{| _id := oid_counter w; value := s; __v := 0 |}]) ∧
       method req = POST ∧
       (app req w).1 =
         Replied {| statusCode := 200;
                    payload := Some (JObj {[ "message" := JStr "Word added successfully" ]}) |}).
Proof.
  intros Hinv.
  destruct (app_cases req w) as [-> | [[Hm ->] | [_ ->]]].
  - split; [done|]. exists []. by rewrite app_nil_r.
  - unfold run_handler.
    destruct (addWord_collection req res w) as [Hc | (s & Hs & Hc & Hr)];
      destruct (addWord req res w) as [[r'|e] w1]; cbn in *.
    + split; [unfold values_nonempty; by rewrite Hc|].
      exists []. by rewrite app_nil_r.
    + split; [unfold values_nonempty; by rewrite Hc|].
      exists []. by rewrite app_nil_r.
    + split.
      * unfold values_nonempty. rewrite Hc. apply Forall_app. split; [done|].
        by apply Forall_singleton.
      * eexists. split; [done|]. intros _. simplify_eq. split; [by exists s|done].
    + done.
  - unfold run_handler. rewrite viewWords_eq.
    destruct (db_fault w); cbn; (split; [done|]); exists []; by rewrite app_nil_r.
Qed.

(** C9: no deduplication.  For every non-empty word [s], two insertion
    requests with [s] that both succeed create two records with distinct
    identifiers, and a following listing response holds both: its array
    ends with two entries that each carry [value] [s] and that differ in
    their [_id]. *)
Theorem insert_twice_two_records (s : string) (w : World) :
  s ≠ "" →
  db_fault w = None →
  let w2 := (app (insertion_request s) (app (insertion_request s) w).2).2 in
  ∃ r1 r2,
    collection w2 = collection w ++ [r1; r2] ∧
    value r1 = s ∧ value r2 = s ∧ _id r1 ≠ _id r2 ∧
    (app listing_request w2).1 =
      Replied {| statusCode := 200;
                 payload := Some (JArr ((toJSON <$> collection w) ++
                                        [toJSON r1; toJSON r2])) |} ∧
    get_property "value" (toJSON r1) = Some (JStr s) ∧
    get_property "value" (toJSON r2) = Some (JStr s) ∧
    get_property "_id" (toJSON r1) ≠ get_property "_id" (toJSON r2) ∧
    toJSON r1 ≠ toJSON r2.
Proof.
  intros Hs Hup w2. subst w2.
  rewrite (app_insertion_request s w) by done. cbn [snd].
  rewrite app_insertion_request by done. cbn [snd].
  rewrite app_listing_request by done. cbn [collection oid_counter].
  eexists {| _id := oid_counter w; value := s; __v := 0 |},
          {| _id := N.succ (oid_counter w); value := s; __v := 0 |}.
  rewrite <- app_assoc. cbn [app _id value].
  assert (get_property "_id"
            (toJSON {| _id := oid_counter w; value := s; __v := 0 |}) ≠
          get_property "_id"
            (toJSON {| _id := N.succ (oid_counter w); value := s; __v := 0 |}))
    as Hid.
  { change (Some (JStr (toHexString (oid_counter w))) ≠
            Some (JStr (toHexString (N.succ (oid_counter w))))).
    assert (∀ a b : string, Some (JStr a) = Some (JStr b) → a = b) as Hinj
      by (by intros a b [= ->]).
    intros H. by apply Hinj, toHexString_succ in H. }
  split; [done|]. split; [done|]. split; [done|]. split; [lia|].
  split; [by rewrite fmap_app|]. split; [done|]. split; [done|].
  split; [exact Hid|]. intros H. apply Hid. by rewrite H.
Qed.

(** C10: the presence check is JavaScript falsiness of [req.body.word]:
    every falsy value is answered 400 with [{error: "Word is required"}]
    before any persistence call; an absent field, the empty string, [null],
    [false] and the number 0 are all falsy, although Mongoose would cast 0
    and [false] to the non-empty strings "0" and "false". *)
Theorem addWord_rejects_falsy :
  (∀ (req : Request) (word : option JSON) (w : World),
     destructure "word" (body req) = inr word →
     ToBoolean word = false →
     addWord req res w =
       (Normal {| statusCode := 400;
                  payload := Some (JObj {[ "error" := JStr "Word is required" ]}) |},
        w)) ∧
  Forall (λ word, ToBoolean word = false)
    [None; Some (JStr ""); Some JNull; Some (JBool false); Some (JNum 0)] ∧
  castString "value" (Some (JNum 0)) = inr (Some "0") ∧
  castString "value" (Some (JBool false)) = inr (Some "false") ∧
  checkRequired (Some "0") = true ∧ checkRequired (Some "false") = true.
Proof.
  split; [|split].
  - intros req word w Hd Hf. by rewrite (addWord_falsy _ _ _ _ Hd Hf).
  - repeat constructor.
  - repeat split.
Qed.

(** ** Further properties of the handlers *)

(** Reading [word] off the body failed: the handler throws at once. *)
Lemma addWord_throws (req : Request) (r : Response) (w : World) (e : JSError) :
  destructure "word" (body req) = inl e →
  addWord req r w = (Throw e, w).
Proof. intros Hd. unfold addWord. rewrite Hd. reflexivity. Qed.

(** Once [word] has been read off the body, the insertion handler ends in
    one of three ways. *)
Lemma addWord_three_ways (req : Request) (r : Response) (w : World) (word : option JSON) :
  destructure "word" (body req) = inr word →
  let d := {| doc_id := oid_counter w; doc_value := castString "value" word |} in
  (ToBoolean word = false ∧
   addWord req r w =
     (Normal (json (JObj {[ "error" := JStr "Word is required" ]})
                   (status HTTP_BAD_REQUEST r)), w)) ∨
  (ToBoolean word = true ∧
   ∃ s, castString "value" word = inr (Some s) ∧ s ≠ "" ∧ db_fault w = None ∧
     addWord req r w =
       (Normal (json (JObj {[ "message" := JStr "Word added successfully" ]}) r),
        {| collection := collection w ++
             [{| _id := oid_counter w; value := s; __v := 0 |}];
           oid_counter := N.succ (oid_counter w);
           db_fault := db_fault w; console := console w;
           calls := calls w ++ [CallSave d] |})) ∨
  (ToBoolean word = true ∧
   ∃ e w', (new_Word word ≫= save) w = (Throw e, w') ∧
     addWord req r w =
       (Normal (json (JObj {[ "error" := JStr "Error adding word" ]})
                     (status HTTP_INTERNAL_SERVER_ERROR r)),
        {| collection := collection w;
           oid_counter := N.succ (oid_counter w);
           db_fault := db_fault w;
           console := console w ++ [("Error adding word:", e)];
           calls := calls w ++ [CallSave d] |})).
Proof.
  intros Hd d. destruct (ToBoolean word) eqn:Ht.
  2:{ left. split; [done|]. by apply (addWord_falsy _ _ _ word). }
  right. rewrite (addWord_truthy _ _ _ _ Hd Ht), new_Word_save. cbn. subst d.
  destruct (castString "value" word) as [e|v] eqn:Hc.
  { right. split; [done|]. by eexists _, _. }
  destruct (checkRequired v) eqn:Hv.
  2:{ right. split; [done|]. by eexists _, _. }
  apply checkRequired_true in Hv as (s & -> & Hs).
  destruct (db_fault w) eqn:Hf.
  { right. split; [done|]. by eexists _, _. }
  left. split; [done|]. by exists s.
Qed.

(** X1: [const { word } = req.body] stands before the [try] block, so the
    insertion handler throws (its promise rejects, no reply is sent) exactly
    when [req.body] is [undefined] or [null]; the error is a [TypeError] and
    nothing has been done to the world. *)
Theorem addWord_throws_iff (req : Request) (r : Response) (w : World) :
  ((∃ e, (addWord req r w).1 = Throw e) ↔
   (body req = None ∨ body req = Some JNull)) ∧
  (∀ e, (addWord req r w).1 = Throw e →
     (∃ msg, e = TypeError msg) ∧ (addWord req r w).2 = w).
Proof.
  destruct (destructure "word" (body req)) as [e0|word] eqn:Hd.
  - assert (addWord req r w = (Throw e0, w)) as Hrun.
    { unfold addWord. rewrite Hd. reflexivity. }
    rewrite Hrun. cbn. split.
    + split; [|by eexists]. intros _.
      destruct (body req) as [[]|]; cbn in Hd; auto; done.
    + intros e [= <-]. split; [|done].
      destruct (body req) as [[]|]; cbn in Hd; simplify_eq; by eexists.
  - assert (∃ rp, (addWord req r w).1 = Normal rp) as [rp Hrp].
    { destruct (addWord_three_ways req r w word Hd)
        as [[_ ->] | [(_ & s & _ & _ & _ & ->) | (_ & e & w' & _ & ->)]];
        by eexists. }
    rewrite Hrp. split.
    + split; [by intros [e He]|].
      intros [Hb | Hb]; rewrite Hb in Hd; done.
    + by intros e He.
Qed.

(** X2: an insertion request that is answered is answered in one of three
    ways: 400 with the world untouched; 200 with one record appended, one
    [save] call and no console line; 500 with one console line, one [save]
    call (no retry) and no record.  The body of the reply is one of three
    constants. *)
Theorem addWord_outcomes (req : Request) (w : World) (rp : Response) :
  (addWord req res w).1 = Normal rp →
  (rp = {| statusCode := 400;
           payload := Some (JObj {[ "error" := JStr "Word is required" ]}) |} ∧
   (addWord req res w).2 = w) ∨
  (rp = {| statusCode := 200;
           payload := Some (JObj {[ "message" := JStr "Word added successfully" ]}) |} ∧
   (∃ rec, collection (addWord req res w).2 = collection w ++ [rec]) ∧
   console (addWord req res w).2 = console w ∧
   (∃ d, calls (addWord req res w).2 = calls w ++ [CallSave d])) ∨
  (rp = {| statusCode := 500;
           payload := Some (JObj {[ "error" := JStr "Error adding word" ]}) |} ∧
   collection (addWord req res w).2 = collection w ∧
   (∃ e, console (addWord req res w).2 = console w ++ [("Error adding word:", e)]) ∧
   (∃ d, calls (addWord req res w).2 = calls w ++ [CallSave d])).
Proof.
  destruct (destructure "word" (body req)) as [e0|word] eqn:Hd.
  { unfold addWord. rewrite Hd. done. }
  destruct (addWord_three_ways req res w word Hd)
    as [[_ ->] | [(_ & s & _ & _ & _ & ->) | (_ & e & w' & _ & ->)]];
    cbn; intros [= <-].
  - by left.
  - right. left. split; [done|]. split; [by eexists|]. split; [done|by eexists].
  - right. right. split; [done|]. split; [done|]. split; by eexists.
Qed.

(** X3: a body that is not an object (an array, a string, a number, a
    boolean) has no [word]: the request is answered 400 and nothing else
    happens. *)
Theorem addWord_non_object_body (req : Request) (b : JSON) (w : World) :
  body req = Some b →
  b ≠ JNull →
  (∀ m, b ≠ JObj m) →
  addWord req res w =
    (Normal {| statusCode := 400;
               payload := Some (JObj {[ "error" := JStr "Word is required" ]}) |}, w).
Proof.
  intros Hb Hnull Hobj.
  rewrite (addWord_falsy req res w None); [done| |done].
  rewrite Hb. destruct b; try done. by destruct (Hobj m).
Qed.

(** X4: what is stored is Mongoose's cast of the word to [String], not the
    word itself: a truthy word that casts to a non-empty string [s] (a
    number, [true], an object with a string [_id]) is stored with [value]
    [s] and answered 200. *)
Theorem addWord_stores_cast (req : Request) (word : option JSON) (s : string) (w : World) :
  destructure "word" (body req) = inr word →
  ToBoolean word = true →
  castString "value" word = inr (Some s) →
  s ≠ "" →
  db_fault w = None →
  (addWord req res w).1 =
    Normal {| statusCode := 200;
              payload := Some (JObj {[ "message" := JStr "Word added successfully" ]}) |} ∧
  collection (addWord req res w).2 =
    collection w ++ [{| _id := oid_counter w; value := s; __v := 0 |}].
Proof.
  intros Hd Ht Hc Hs Hup.
  rewrite (addWord_truthy _ _ _ _ Hd Ht), new_Word_save. cbn.
  rewrite Hc. cbn. apply String_eqb_empty in Hs. rewrite Hs. cbn.
  by rewrite Hup.
Qed.

(** X5: a word that Mongoose cannot cast to [String] (any array, the empty
    one included, and any object without a non-empty string [_id]) passes
    the presence check and fails validation: the reply is 500, not 400, the
    cast error is logged and nothing is stored, also when the store is
    reachable. *)
Theorem addWord_uncastable (req : Request) (word : JSON) (w : World) :
  destructure "word" (body req) = inr (Some word) →
  (∃ l, word = JArr l) ∨
  (∃ m, word = JObj m ∧ ∀ s, m !! "_id" = Some (JStr s) → s = "") →
  (addWord req res w).1 =
    Normal {| statusCode := 500;
              payload := Some (JObj {[ "error" := JStr "Error adding word" ]}) |} ∧
  console (addWord req res w).2 =
    console w ++ [("Error adding word:", ValidationError (CastError "string" "value"))] ∧
  collection (addWord req res w).2 = collection w.
Proof.
  intros Hd Hw.
  assert (ToBoolean (Some word) = true) as Ht.
  { by destruct Hw as [[l ->] | (m & -> & _)]. }
  assert (castString "value" (Some word) = inl (CastError "string" "value")) as Hc.
  { destruct Hw as [[l ->] | (m & -> & Hid)]; [done|]. cbn.
    destruct (m !! "_id") as [[| | |s| |]|] eqn:Hm; try done.
    rewrite (Hid s eq_refl). reflexivity. }
  rewrite (addWord_truthy _ _ _ _ Hd Ht), new_Word_save, Hc. done.
Qed.

(** X6: listing is read-only and repeatable.  Whatever the state of the
    store, the listing request is answered (it never throws), it leaves the
    collection, the identifier counter and the state of the store as they
    were, and a second listing request gets the same reply. *)
Theorem listing_read_only (w : World) :
  let w1 := (app listing_request w).2 in
  (∃ rp, (app listing_request w).1 = Replied rp) ∧
  collection w1 = collection w ∧
  oid_counter w1 = oid_counter w ∧
  db_fault w1 = db_fault w ∧
  (app listing_request w1).1 = (app listing_request w).1.
Proof.
  cbn. rewrite !app_viewWords by done. unfold run_handler.
  rewrite (viewWords_eq listing_request res w).
  destruct (db_fault w) as [msg|] eqn:Hf; cbn;
    rewrite viewWords_eq; cbn; eauto 10.
Qed.

(** ** Properties of the application and of its histories *)

(** One request, as seen from the store: the state of the store is not
    touched, and either the collection is as before, or one record with a
    non-empty value and the next identifier was appended and the reply
    reports the insertion. *)
Lemma app_step (req : Request) (w : World) :
  db_fault (app req w).2 = db_fault w ∧
  ((collection (app req w).2 = collection w ∧
    (oid_counter w ≤ oid_counter (app req w).2)%N ∧
    is_added (app req w).1 = false) ∨
   (∃ v, v ≠ "" ∧
      collection (app req w).2 =
        collection w ++ [{| _id := oid_counter w; value := v; __v := 0 |}] ∧
      oid_counter (app req w).2 = N.succ (oid_counter w) ∧
      is_added (app req w).1 = true)).
Proof.
  destruct (app_cases req w) as [-> | [[_ ->] | [_ ->]]]; unfold run_handler.
  - split; [done|]. left. cbn. split; [done|]. split; [lia|done].
  - destruct (destructure "word" (body req)) as [e0|word] eqn:Hd.
    { rewrite (addWord_throws _ _ _ _ Hd). cbn. split; [done|]. left.
      split; [done|]. split; [lia|done]. }
    destruct (addWord_three_ways req res w word Hd)
      as [[_ ->] | [(_ & s & _ & Hs & _ & ->) | (_ & e & w' & _ & ->)]]; cbn.
    + split; [done|]. left. split; [done|]. split; [lia|done].
    + split; [done|]. right. by exists s.
    + split; [done|]. left. split; [done|]. split; [lia|done].
  - rewrite viewWords_eq. destruct (db_fault w) eqn:Hf; cbn;
      (split; [done|]); left; (split; [done|]); (split; [lia|done]).
Qed.

Lemma app_insertion_request_empty (w : World) :
  app (insertion_request "") w =
    (Replied {| statusCode := 400;
                payload := Some (JObj {[ "error" := JStr "Word is required" ]}) |}, w).
Proof.
  rewrite app_addWord by done. unfold run_handler.
  by rewrite (addWord_falsy _ _ _ (Some (JStr ""))).
Qed.

Lemma serve_cons_request (req : Request) (evs : list Event) (w : World) :
  serve (Arrives req :: evs) w =
    ((app req w).1 :: (serve evs (app req w).2).1, (serve evs (app req w).2).2).
Proof.
  cbn. destruct (app req w) as [s w1]. cbn. by destruct (serve evs w1).
Qed.

(** X7: every reply of the application has status 200, 400 or 500, and the
    error log grows, by exactly one line, exactly when the status is 500. *)
Theorem app_logs_iff_500 (req : Request) (w : World) (rp : Response) :
  (app req w).1 = Replied rp →
  (statusCode rp = 200 ∨ statusCode rp = 400 ∨ statusCode rp = 500)%Z ∧
  (statusCode rp = 500%Z →
     ∃ line, console (app req w).2 = console w ++ [line]) ∧
  (statusCode rp ≠ 500%Z → console (app req w).2 = console w).
Proof.
  destruct (app_cases req w) as [-> | [[_ ->] | [_ ->]]]; unfold run_handler.
  - done.
  - destruct (destructure "word" (body req)) as [e0|word] eqn:Hd.
    { by rewrite (addWord_throws _ _ _ _ Hd). }
    destruct (addWord_three_ways req res w word Hd)
      as [[_ ->] | [(_ & s & _ & Hs & _ & ->) | (_ & e & w' & _ & ->)]];
      cbn; intros [= <-]; cbn.
    + split; [auto|]. split; done.
    + split; [auto|]. split; done.
    + split; [auto|]. split; [by eexists|done].
  - rewrite viewWords_eq. destruct (db_fault w) eqn:Hf; cbn; intros [= <-]; cbn.
    + split; [auto|]. split; [by eexists|done].
    + split; [auto|]. split; done.
Qed.

(** X8: along every history (requests of any kind, in any order, with the
    store failing and recovering in between) the collection only grows, by
    appending; every stored value stays non-empty and the identifiers stay
    pairwise distinct. *)
Theorem serve_keeps_store_sound (evs : list Event) (w : World) :
  values_nonempty w →
  ids_fresh w →
  values_nonempty (serve evs w).2 ∧
  ids_fresh (serve evs w).2 ∧
  collection w `prefix_of` collection (serve evs w).2.
Proof.
  revert w. induction evs as [|[req|fault] evs IH]; intros w Hv Hi.
  - done.
  - rewrite serve_cons_request. cbn [snd].
    destruct (app_step req w) as [_ [(Hc & Hn & _) | (v & Hne & Hc & Hn & _)]].
    + destruct (IH (app req w).2) as (Hv' & Hi' & Hp).
      * unfold values_nonempty. by rewrite Hc.
      * destruct Hi as [Hb Hd]. unfold ids_fresh. rewrite Hc. split; [|done].
        eapply Forall_impl; [exact Hb|]. cbn. intros r Hr. lia.
      * rewrite Hc in Hp. done.
    + destruct Hi as [Hb Hd].
      destruct (IH (app req w).2) as (Hv' & Hi' & Hp).
      * unfold values_nonempty. rewrite Hc. apply Forall_app. split; [done|].
        by apply Forall_singleton.
      * unfold ids_fresh. rewrite Hc, Hn. split.
        -- apply Forall_app. split.
           ++ eapply Forall_impl; [exact Hb|]. cbn. intros r Hr. lia.
           ++ apply Forall_singleton. cbn. lia.
        -- rewrite fmap_app. apply NoDup_app. split; [done|]. split.
           ++ intros x Hx Hx'. cbn in Hx'. apply list_elem_of_singleton in Hx'.
              subst x. apply list_elem_of_fmap in Hx as (r & Hr & Hin).
              rewrite Forall_forall in Hb. specialize (Hb r Hin). lia.
           ++ apply NoDup_singleton.
      * split; [done|]. split; [done|].
        etrans; [|exact Hp]. rewrite Hc. by apply prefix_app_r.
  - cbn. apply (IH (set_fault fault w)); done.
Qed.

(** X9: the number of records added along a history is the number of
    replies that report an insertion: no request adds a record without
    saying so, and none reports an insertion that did not happen. *)
Theorem serve_counts_insertions (evs : list Event) (w : World) :
  length (collection (serve evs w).2) =
    length (collection w) +
    length (filter (λ s, is_added s = true) (serve evs w).1).
Proof.
  revert w. induction evs as [|[req|fault] evs IH]; intros w.
  - cbn. lia.
  - rewrite serve_cons_request. cbn [fst snd].
    rewrite IH.
    destruct (app_step req w) as [_ [(Hc & _ & Ha) | (v & _ & Hc & _ & Ha)]];
      rewrite Hc.
    + rewrite filter_cons_False by (rewrite Ha; done). done.
    + rewrite filter_cons_True by done. rewrite length_app. cbn. lia.
  - cbn. apply (IH (set_fault fault w)).
Qed.

(** X10: on a store that serves its calls, submitting a list of words
    stores exactly the non-empty ones, each as often as it was submitted:
    empty words are refused, nothing is deduplicated, nothing is lost. *)
Theorem submit_stores_nonempty (ws : list string) (w : World) :
  db_fault w = None →
  value <$> collection (serve (submit ws) w).2 ≡ₚ
    (value <$> collection w) ++ filter (λ s, s ≠ "") ws.
Proof.
  intros Hup.
  enough (value <$> collection (serve (submit ws) w).2 =
            (value <$> collection w) ++ filter (λ s, s ≠ "") ws) as -> by done.
  revert w Hup. induction ws as [|s ws IH]; intros w Hup.
  - cbn. by rewrite app_nil_r.
  - unfold submit. rewrite fmap_cons. fold (submit ws).
    rewrite serve_cons_request. cbn [snd].
    destruct (decide (s = "")) as [-> | Hs].
    + rewrite app_insertion_request_empty. cbn [snd].
      rewrite IH by done. by rewrite filter_cons_False by (intros H; by apply H).
    + rewrite app_insertion_request by done. cbn [snd].
      rewrite IH by done. cbn [collection].
      rewrite filter_cons_True by done.
      rewrite fmap_app. cbn. by rewrite <- app_assoc.
Qed.

(** X11: a failed connection at start-up is only logged.  The connection
    attempt never throws and touches no record; when the store is at fault
    it writes the error to the error log, and the server goes on to answer
    insertion and listing requests with the fixed 500 replies. *)
Theorem connect_failure_only_logged (w : World) (s : string) :
  s ≠ "" →
  (db_fault w = None →
     connect_MongoDB w = (Normal ["Connected to MongoDB"], w)) ∧
  (∀ msg, db_fault w = Some msg →
     (connect_MongoDB w).1 = Normal [] ∧
     collection (connect_MongoDB w).2 = collection w ∧
     console (connect_MongoDB w).2 =
       console w ++ [("Error connecting to MongoDB:", MongoError msg)] ∧
     (app (insertion_request s) (connect_MongoDB w).2).1 =
       Replied {| statusCode := 500;
                  payload := Some (JObj {[ "error" := JStr "Error adding word" ]}) |} ∧
     (app listing_request (connect_MongoDB w).2).1 =
       Replied {| statusCode := 500;
                  payload := Some (JObj {[ "error" := JStr "Error fetching words" ]}) |}).
Proof.
  intros Hs. split.
  - intros Hup. unfold connect_MongoDB, mongoose_connect. run_async.
    by rewrite Hup.
  - intros msg Hf.
    assert (connect_MongoDB w =
              (Normal [],
               {| collection := collection w; oid_counter := oid_counter w;
                  db_fault := Some msg;
                  console := console w ++
                    [("Error connecting to MongoDB:", MongoError msg)];
                  calls := calls w |})) as ->.
    { unfold connect_MongoDB, mongoose_connect. run_async. rewrite Hf. by rewrite Hf. }
    cbn [fst snd collection console].
    split; [done|]. split; [done|]. split; [done|].
    apply String_eqb_empty in Hs. split.
    + rewrite app_addWord by done. unfold run_handler.
      rewrite (addWord_truthy _ _ _ (Some (JStr s))); [| done | by (cbn; rewrite Hs)].
      rewrite new_Word_save. cbn. by rewrite Hs.
    + rewrite app_viewWords by done. unfold run_handler.
      by rewrite viewWords_eq.
Qed.

(** Records are appended, never moved: what was stored is a prefix of what
    is stored after any history. *)
Lemma serve_prefix (evs : list Event) (w : World) :
  collection w `prefix_of` collection (serve evs w).2.
Proof.
  revert w. induction evs as [|[req|fault] evs IH]; intros w.
  - done.
  - rewrite serve_cons_request. cbn [snd]. etrans; [|apply IH].
    destruct (app_step req w) as [_ [(-> & _) | (v & _ & -> & _)]];
      [done | by apply prefix_app_r].
  - cbn. apply (IH (set_fault fault w)).
Qed.

(** X12: a stored word stays listed.  Whatever happens after a record was
    stored (other requests, outages of the store), every listing that the
    store serves afterwards contains that record. *)
Theorem stored_word_stays_listed (evs : list Event) (w : World) (r : WordRecord) :
  r ∈ collection w →
  db_fault (serve evs w).2 = None →
  ∃ arr,
    (app listing_request (serve evs w).2).1 =
      Replied {| statusCode := 200; payload := Some (JArr arr) |} ∧
    toJSON r ∈ arr ∧
    get_property "value" (toJSON r) = Some (JStr (value r)).
Proof.
  intros Hr Hup. rewrite app_listing_request by done.
  eexists. split; [done|]. split; [|done].
  apply list_elem_of_fmap_2.
  destruct (serve_prefix evs w) as [k ->].
  apply elem_of_app. by left.
Qed.

End WithNumberRendering.

(** ** The claims at concrete requests *)

(** C1 as stated fails when the store is unreachable: the insertion is
    answered 500, nothing is stored, and the listing response is the error
    object, not an array. *)
Lemma insert_then_list_unreachable :
  "testword" ≠ "" ∧
  ¬ ∃ r arr rec,
      (app fixed_rendering listing_request
         (app fixed_rendering (insertion_request "testword") unreachable_store).2).1
        = Replied r ∧
      payload r = Some (JArr arr) ∧
      rec ∈ arr ∧ get_property "value" rec = Some (JStr "testword").
Proof.
  split; [discriminate|].
  intros (r & arr & rec & Hr & Hp & _).
  vm_compute in Hr. injection Hr as <-. discriminate Hp.
Qed.

Lemma insert_then_list_witness :
  "testword" ≠ "" ∧ db_fault empty_store = None ∧
  ∃ r arr rec,
    (app fixed_rendering listing_request
       (app fixed_rendering (insertion_request "testword") empty_store).2).1
      = Replied r ∧
    payload r = Some (JArr arr) ∧
    rec ∈ arr ∧ get_property "value" rec = Some (JStr "testword").
Proof.
  split; [discriminate|]. split; [reflexivity|].
  apply (insert_then_list fixed_rendering "testword" empty_store);
    [discriminate | reflexivity].
Defined.



Lemma addWord_stores_word_witness :
  (addWord fixed_rendering (insertion_request "testword") res empty_store).1 =
    Normal {| statusCode := 200;
              payload := Some (JObj {[ "message" := JStr "Word added successfully" ]}) |} ∧
  collection (addWord fixed_rendering (insertion_request "testword") res empty_store).2 =
    [{| _id := 0%N; value := "testword"; __v := 0 |}] ∧
  calls (addWord fixed_rendering (insertion_request "testword") res empty_store).2 =
    [CallSave {| doc_id := 0%N; doc_value := inr (Some "testword") |}].
Proof.
  apply (addWord_stores_word fixed_rendering (insertion_request "testword")
           "testword" empty_store);
    [reflexivity | discriminate | reflexivity].
Defined.

Lemma addWord_persistence_failure_witness :
  (addWord fixed_rendering (insertion_request "testword") res unreachable_store).1 =
    Normal {| statusCode := 500;
              payload := Some (JObj {[ "error" := JStr "Error adding word" ]}) |} ∧
  console (addWord fixed_rendering (insertion_request "testword") res unreachable_store).2 =
    [("Error adding word:", MongoError "ECONNREFUSED")] ∧
  collection (addWord fixed_rendering (insertion_request "testword") res unreachable_store).2
    = [].
Proof.
  apply (addWord_persistence_failure fixed_rendering (insertion_request "testword")
           (Some (JStr "testword")) unreachable_store
           {| collection := []; oid_counter := 1; db_fault := Some "ECONNREFUSED";
              console := [];
              calls := [CallSave {| doc_id := 0%N; doc_value := inr (Some "testword") |}] |}
           (MongoError "ECONNREFUSED"));
    reflexivity.
Defined.

(** C6 as stated fails on the key of the identifier: the record listed
    from [testword_store] has the keys [_id], [value] and [__v], and none
    named [id]. *)
Lemma listing_identifier_not_named_id :
  db_fault testword_store = None ∧
  ¬ ∀ arr,
      (viewWords listing_request res testword_store).1 =
        Normal {| statusCode := 200; payload := Some (JArr arr) |} →
      ∀ rec, rec ∈ arr →
        is_Some (get_property "value" rec) ∧ is_Some (get_property "id" rec).
Proof.
  split; [reflexivity|]. intros H.
  destruct (H [toJSON {| _id := 0%N; value := "testword"; __v := 0 |}] eq_refl _
              (list_elem_of_here _ _)) as [_ [x Hx]].
  vm_compute in Hx. discriminate Hx.
Qed.

Lemma viewWords_lists_all_witness :
  db_fault testword_store = None ∧
  (viewWords listing_request res testword_store).1 =
    Normal {| statusCode := 200;
              payload := Some (JArr [toJSON {| _id := 0%N; value := "testword"; __v := 0 |}]) |}.
Proof.
  split; [reflexivity|].
  apply (viewWords_lists_all listing_request testword_store). reflexivity.
Defined.

Lemma viewWords_retrieval_failure_witness :
  (viewWords listing_request res unreachable_store).1 =
    Normal {| statusCode := 500;
              payload := Some (JObj {[ "error" := JStr "Error fetching words" ]}) |} ∧
  console (viewWords listing_request res unreachable_store).2 =
    [("Error fetching words:", MongoError "ECONNREFUSED")] ∧
  collection (viewWords listing_request res unreachable_store).2 = [].
Proof.
  apply (viewWords_retrieval_failure listing_request unreachable_store
           {| collection := []; oid_counter := 0; db_fault := Some "ECONNREFUSED";
              console := []; calls := [CallFind] |}
           (MongoError "ECONNREFUSED")).
  reflexivity.
Defined.

Lemma app_preserves_words_witness :
  values_nonempty testword_store ∧
  values_nonempty
    (app fixed_rendering (insertion_request "again") testword_store).2.
Proof.
  assert (values_nonempty testword_store) as Hinv.
  { apply Forall_singleton. discriminate. }
  split; [exact Hinv|].
  apply (app_preserves_words fixed_rendering (insertion_request "again")
           testword_store Hinv).
Defined.

Lemma insert_twice_two_records_witness :
  "testword" ≠ "" ∧ db_fault empty_store = None ∧
  ∃ r1 r2,
    collection (app fixed_rendering (insertion_request "testword")
                  (app fixed_rendering (insertion_request "testword") empty_store).2).2
      = [r1; r2] ∧
    value r1 = "testword" ∧ value r2 = "testword" ∧ _id r1 ≠ _id r2 ∧
    (app fixed_rendering listing_request
       (app fixed_rendering (insertion_request "testword")
          (app fixed_rendering (insertion_request "testword") empty_store).2).2).1 =
      Replied {| statusCode := 200;
                 payload := Some (JArr [toJSON r1; toJSON r2]) |} ∧
    get_property "value" (toJSON r1) = Some (JStr "testword") ∧
    get_property "value" (toJSON r2) = Some (JStr "testword") ∧
    get_property "_id" (toJSON r1) ≠ get_property "_id" (toJSON r2) ∧
    toJSON r1 ≠ toJSON r2.
Proof.
  split; [discriminate|]. split; [reflexivity|].
  apply (insert_twice_two_records fixed_rendering "testword" empty_store);
    [discriminate | reflexivity].
Defined.

Lemma addWord_rejects_falsy_witness :
  let req := {| method := POST; path := "/api/addWord";
                body := Some (JObj {[ "word" := JNum 0 ]}) |} in
  destructure "word" (body req) = inr (Some (JNum 0)) ∧
  ToBoolean (Some (JNum 0)) = false ∧
  addWord fixed_rendering req res empty_store =
    (Normal {| statusCode := 400;
               payload := Some (JObj {[ "error" := JStr "Word is required" ]}) |},
     empty_store).
Proof.
  intros req. split; [reflexivity|]. split; [reflexivity|].
  apply (proj1 (addWord_rejects_falsy fixed_rendering) req (Some (JNum 0)) empty_store);
    reflexivity.
Defined.

(** ** The further properties at concrete requests *)

Lemma addWord_outcomes_witness :
  (addWord fixed_rendering (insertion_request "testword") res unreachable_store).1 =
    Normal {| statusCode := 500;
              payload := Some (JObj {[ "error" := JStr "Error adding word" ]}) |} ∧
  ∃ d, calls (addWord fixed_rendering (insertion_request "testword") res
                unreachable_store).2 = calls unreachable_store ++ [CallSave d].
Proof.
  split; [reflexivity|].
  destruct (addWord_outcomes fixed_rendering (insertion_request "testword")
              unreachable_store
              {| statusCode := 500;
                 payload := Some (JObj {[ "error" := JStr "Error adding word" ]}) |}
              eq_refl)
    as [[H _] | [[H _] | (_ & _ & _ & Hc)]];
    [discriminate H | discriminate H | exact Hc].
Defined.

Lemma addWord_non_object_body_witness :
  let req := {| method := POST; path := "/api/addWord"; body := Some (JArr []) |} in
  body req = Some (JArr []) ∧
  addWord fixed_rendering req res testword_store =
    (Normal {| statusCode := 400;
               payload := Some (JObj {[ "error" := JStr "Word is required" ]}) |},
     testword_store).
Proof.
  intros req. split; [reflexivity|].
  apply (addWord_non_object_body fixed_rendering req (JArr []) testword_store);
    [reflexivity | discriminate | discriminate].
Defined.

Lemma addWord_stores_cast_witness :
  let req := {| method := POST; path := "/api/addWord";
                body := Some (JObj {[ "word" := JBool true ]}) |} in
  castString fixed_rendering "value" (Some (JBool true)) = inr (Some "true") ∧
  collection (addWord fixed_rendering req res empty_store).2 =
    [{| _id := 0%N; value := "true"; __v := 0 |}].
Proof.
  intros req. split; [reflexivity|].
  apply (addWord_stores_cast fixed_rendering req (Some (JBool true)) "true" empty_store);
    [reflexivity | reflexivity | reflexivity | discriminate | reflexivity].
Defined.

Lemma addWord_uncastable_witness :
  let req := {| method := POST; path := "/api/addWord";
                body := Some (JObj {[ "word" := JArr [] ]}) |} in
  db_fault empty_store = None ∧
  (addWord fixed_rendering req res empty_store).1 =
    Normal {| statusCode := 500;
              payload := Some (JObj {[ "error" := JStr "Error adding word" ]}) |} ∧
  console (addWord fixed_rendering req res empty_store).2 =
    [("Error adding word:", ValidationError (CastError "string" "value"))] ∧
  collection (addWord fixed_rendering req res empty_store).2 = [].
Proof.
  intros req. split; [reflexivity|].
  apply (addWord_uncastable fixed_rendering req (JArr []) empty_store);
    [reflexivity | left; exists []; reflexivity].
Defined.

Lemma app_logs_iff_500_witness :
  (app fixed_rendering listing_request unreachable_store).1 =
    Replied {| statusCode := 500;
               payload := Some (JObj {[ "error" := JStr "Error fetching words" ]}) |} ∧
  ∃ line,
    console (app fixed_rendering listing_request unreachable_store).2 =
      console unreachable_store ++ [line].
Proof.
  split; [reflexivity|].
  apply (app_logs_iff_500 fixed_rendering listing_request unreachable_store
           {| statusCode := 500;
              payload := Some (JObj {[ "error" := JStr "Error fetching words" ]}) |}
           eq_refl).
  reflexivity.
Defined.

Lemma serve_keeps_store_sound_witness :
  let evs := [Arrives (insertion_request "a"); StoreTurns (Some "ECONNRESET");
              Arrives (insertion_request "b"); StoreTurns None;
              Arrives listing_request; Arrives (insertion_request "a")] in
  values_nonempty (serve fixed_rendering evs empty_store).2 ∧
  ids_fresh (serve fixed_rendering evs empty_store).2 ∧
  collection empty_store `prefix_of` collection (serve fixed_rendering evs empty_store).2.
Proof.
  intros evs.
  apply (serve_keeps_store_sound fixed_rendering evs empty_store).
  - apply Forall_nil_2.
  - split; [apply Forall_nil_2 | apply NoDup_nil_2].
Defined.

Lemma submit_stores_nonempty_witness :
  db_fault empty_store = None ∧
  value <$> collection (serve fixed_rendering (submit ["a"; ""; "a"]) empty_store).2
    ≡ₚ ["a"; "a"].
Proof.
  split; [reflexivity|].
  apply (submit_stores_nonempty fixed_rendering ["a"; ""; "a"] empty_store).
  reflexivity.
Defined.

Lemma connect_failure_only_logged_witness :
  db_fault unreachable_store = Some "ECONNREFUSED" ∧
  (connect_MongoDB unreachable_store).1 = Normal [] ∧
  (app fixed_rendering (insertion_request "testword")
     (connect_MongoDB unreachable_store).2).1 =
    Replied {| statusCode := 500;
               payload := Some (JObj {[ "error" := JStr "Error adding word" ]}) |}.
Proof.
  split; [reflexivity|].
  destruct (connect_failure_only_logged fixed_rendering unreachable_store "testword")
    as [_ H]; [discriminate|].
  destruct (H "ECONNREFUSED" eq_refl) as (H1 & _ & _ & H2 & _).
  exact (conj H1 H2).
Defined.

Lemma stored_word_stays_listed_witness :
  let evs := [StoreTurns (Some "ECONNRESET"); Arrives (insertion_request "lost");
              StoreTurns None; Arrives (insertion_request "kept")] in
  let r := {| _id := 0%N; value := "testword"; __v := 0 |} in
  r ∈ collection testword_store ∧
  ∃ arr,
    (app fixed_rendering listing_request (serve fixed_rendering evs testword_store).2).1 =
      Replied {| statusCode := 200; payload := Some (JArr arr) |} ∧
    toJSON r ∈ arr ∧
    get_property "value" (toJSON r) = Some (JStr "testword").
Proof.
  intros evs r. split; [apply list_elem_of_here|].
  apply (stored_word_stays_listed fixed_rendering evs testword_store r);
    [apply list_elem_of_here | reflexivity].
Defined.
